(** * Large payload codec (codec/python/codec.py): a shallow embedding

    The codec sits between a workflow runtime and a remote blob store.
    [encode] offloads every payload whose protobuf size exceeds a threshold,
    [decode] rehydrates every payload that carries the marker metadata key.

    Python values are modelled with their Python types kept apart: [str] is
    [string], [bytes] is [list byte], [int] is [Z], a protobuf
    [map<string, bytes>] is [gmap string bytes].  A call that Python rejects
    at run time for the type of its argument is a [Raise] of the exception
    Python raises. *)

From Stdlib Require Import ZArith Strings.String Strings.Ascii Strings.Byte Lia.
From stdpp Require Import base option list gmap strings.

Local Open Scope string_scope.
Local Open Scope list_scope.
Local Open Scope Z_scope.

(** ** Python values and exceptions *)

Definition bytes : Type := list byte.

(** [str.encode()]: a [string] already holds the UTF-8 bytes of the text. *)
Definition str_encode (s : string) : bytes := list_byte_of_string s.

Definition byte_val (b : byte) : Z := Z.of_N (Byte.to_N b).

(** The exceptions this file can see.  [ConverterError] stands for whatever
    the payload converter raises, [Exception] is the bare [Exception(...)]
    of line 102 with its arguments. *)
Inductive exn : Type :=
  | TypeError (msg : string)
  | UnicodeDecodeError
  | HTTPError (status : Z)
  | JSONDecodeError
  | KeyError (k : string)
  | ValueError
  | AttributeError (msg : string)
  | ConverterError (msg : string)
  | Exception (args : list string).

Inductive result (A : Type) : Type :=
  | Ok (a : A)
  | Raise (e : exn).
Arguments Ok {A} a.
Arguments Raise {A} e.

(** ** [bytes.decode()]: strict UTF-8 *)

(** State of the decoder between two bytes: how many continuation bytes are
    still owed and the range the next one must fall in (the range is narrower
    right after E0, ED, F0 and F4, which excludes overlong forms, surrogates
    and code points above U+10FFFF). *)
Record utf8_state : Type := Utf8 { owed : nat; lo : Z; hi : Z }.

Definition utf8_start : utf8_state := Utf8 0 0 0.

Definition utf8_step (st : utf8_state) (b : byte) : option utf8_state :=
  let x := byte_val b in
  match owed st with
  | O =>
      if x <? 128 then Some utf8_start
      else if (194 <=? x) && (x <=? 223) then Some (Utf8 1 128 191)
      else if x =? 224 then Some (Utf8 2 160 191)
      else if x =? 237 then Some (Utf8 2 128 159)
      else if (225 <=? x) && (x <=? 239) then Some (Utf8 2 128 191)
      else if x =? 240 then Some (Utf8 3 144 191)
      else if x =? 244 then Some (Utf8 3 128 143)
      else if (241 <=? x) && (x <=? 243) then Some (Utf8 3 128 191)
      else None
  | S n =>
      if (lo st <=? x) && (x <=? hi st) then Some (Utf8 n 128 191) else None
  end.

Fixpoint utf8_run (st : utf8_state) (s : bytes) : bool :=
  match s with
  | [] => match owed st with O => true | S _ => false end
  | b :: rest =>
      match utf8_step st b with
      | Some st' => utf8_run st' rest
      | None => false
      end
  end.

Definition bytes_decode (s : bytes) : result string :=
  if utf8_run utf8_start s then Ok (string_of_list_byte s)
  else Raise UnicodeDecodeError.

(** ** [base64.b64encode] *)

Definition b64_alphabet : bytes :=
  str_encode "ABCDEFGHIJKLMNOPQRSTUVWXYZabcdefghijklmnopqrstuvwxyz0123456789+/".

Definition b64_pad : byte := x3d.

Definition b64_char (n : Z) : byte :=
  nth (Z.to_nat (Z.land n 63)) b64_alphabet b64_pad.

Fixpoint b64encode (s : bytes) : bytes :=
  match s with
  | [] => []
  | [a] =>
      let n := Z.shiftl (byte_val a) 16 in
      [b64_char (Z.shiftr n 18); b64_char (Z.shiftr n 12); b64_pad; b64_pad]
  | [a; b] =>
      let n := Z.lor (Z.shiftl (byte_val a) 16) (Z.shiftl (byte_val b) 8) in
      [b64_char (Z.shiftr n 18); b64_char (Z.shiftr n 12);
       b64_char (Z.shiftr n 6); b64_pad]
  | a :: b :: c :: rest =>
      let n := Z.lor (Z.lor (Z.shiftl (byte_val a) 16) (Z.shiftl (byte_val b) 8))
                     (byte_val c) in
      b64_char (Z.shiftr n 18) :: b64_char (Z.shiftr n 12)
        :: b64_char (Z.shiftr n 6) :: b64_char n :: b64encode rest
  end.

(** [base64.b64decode(s)] takes a bytes-like object or an ASCII [str]; for
    any other argument it raises [TypeError] before looking at a value.  Its
    one call site (line 86) passes [remote_payload.size], an [int]. *)
Definition not_bytes_like : exn :=
  TypeError "argument should be a bytes-like object or ASCII string, not 'int'".

Definition b64decode_int (s : Z) : result bytes := Raise not_bytes_like.

(** ** Protobuf messages *)

(** [temporalio.api.common.v1.Payload]:
    [map<string, bytes> metadata = 1; bytes data = 2;] *)
Record Payload : Type := mkPayload {
  metadata : gmap string bytes;
  data : bytes
}.

(** Modelled from the spec: [gen/codec_pb2.py] (the generated [RemotePayload]
    message) is not among the sources.  The spec's Reference Record is
    "original metadata (copy), original size in bytes, digest string in the
    form sha256:hex, remote key (opaque string assigned by the store)"; the
    size is "a plain integer". *)
Record RemotePayload : Type := mkRemotePayload {
  rp_metadata : gmap string bytes;
  rp_size : Z;
  rp_digest : string;
  rp_key : string
}.

(** Number of bytes of the base-128 varint of [n]. *)
Definition varint_size (n : Z) : Z :=
  if n <=? 0 then 1 else Z.log2 n / 7 + 1.

(** A length-delimited field with a one-byte tag: tag, length, content. *)
Definition delimited_size (len : Z) : Z := 1 + varint_size len + len.

Definition str_len (s : string) : Z := Z.of_nat (String.length s).
Definition bytes_len (s : bytes) : Z := Z.of_nat (length s).

(** A map entry is a nested message holding the key (field 1) and the value
    (field 2); both are always written. *)
Definition entry_size (k : string) (v : bytes) : Z :=
  delimited_size (str_len k) + delimited_size (bytes_len v).

Definition metadata_size (m : gmap string bytes) : Z :=
  map_fold (fun k v acc => delimited_size (entry_size k v) + acc) 0 m.

(** [payload.ByteSize()]: the size of the serialised message.  An empty
    [data] field is not written (proto3). *)
Definition ByteSize (payload : Payload) : Z :=
  metadata_size (metadata payload)
  + match data payload with
    | [] => 0
    | _ => delimited_size (bytes_len (data payload))
    end.

(** [json.dumps(payload.metadata)]: the encoder serialises [dict], [list],
    [tuple], [str], [int], [float], [bool] and [None]; for anything else it
    calls [default], which raises [TypeError].  The argument is a protobuf
    map container, not a [dict], and the values it holds are [bytes]: neither
    is serialisable, whatever the map contains. *)
Definition not_serializable : exn :=
  TypeError "Object of type ScalarMapContainer is not JSON serializable".

Definition json_dumps_metadata (m : gmap string bytes) : result string :=
  Raise not_serializable.

(** ** The HTTP client ([requests]) *)

Inductive http_method : Type := PUT | GET.

(** The [params] argument as the caller wrote it: a dict literal
    ([{"digest": ..., "namespace": ...}]) or a set literal
    ([{"key", remote_payload.key}]). *)
Inductive params_arg : Type :=
  | ParamsDict (items : gmap string string)
  | ParamsSet (items : gset string).

Record Request : Type := mkRequest {
  req_method : http_method;
  req_url : string;
  req_params : params_arg;
  req_headers : gmap string string;
  req_data : option bytes
}.

(** [resp.raw] is the connection's file-like stream object, not [bytes]. *)
Record stream : Type := Stream { content : bytes }.

(** A member of a JSON object as far as line 72 tells members apart: a
    string, [null], or anything else (a number, a boolean, an array, an
    object). *)
Inductive json_member : Type :=
  | JString (s : string)
  | JNull
  | JOther.

(** What [resp.json()] returns: an object, or a value that is not one (an
    array, a string, a number, a boolean, [null]). *)
Inductive json_body : Type :=
  | JObject (members : gmap string json_member)
  | JNotObject.

(** [json] is what [resp.json()] returns, [None] when the body does not
    parse. *)
Record Response : Type := mkResponse {
  status_code : Z;
  json : option json_body;
  raw : stream
}.

(** [resp.raise_for_status()] *)
Definition raise_for_status (resp : Response) : result unit :=
  if (400 <=? status_code resp) && (status_code resp <? 600)
  then Raise (HTTPError (status_code resp))
  else Ok tt.

(** [resp.json()[k]]: only an object can be indexed with a [str]; the
    message of the [TypeError] depends on the type of the value, one text
    stands for all. *)
Definition not_subscriptable : exn :=
  TypeError "the JSON value cannot be indexed with a str".

Definition json_item (resp : Response) (k : string) : result json_member :=
  match json resp with
  | None => Raise JSONDecodeError
  | Some JNotObject => Raise not_subscriptable
  | Some (JObject obj) =>
      match obj !! k with
      | Some v => Ok v
      | None => Raise (KeyError k)
      end
  end.

(** [RemotePayload(..., key=v)]: a string field takes a [str]; [None] leaves
    the field unset, which reads as the empty string; any other value is
    refused. *)
Definition not_a_string : exn := TypeError "bad argument type for a string field".

Definition string_field (v : json_member) : result string :=
  match v with
  | JString s => Ok s
  | JNull => Ok ""
  | JOther => Raise not_a_string
  end.

(** [hashlib.sha256(resp.raw)]: the argument must support the buffer
    protocol; a stream object does not. *)
Definition sha256_of_stream (s : stream) : result string :=
  Raise (TypeError "object supporting the buffer API required").

(** [Payload(metadata=m, data=resp.raw)]: a [bytes] field refuses an object
    that is not [bytes]. *)
Definition Payload_of_stream (m : gmap string bytes) (s : stream) : result Payload :=
  Raise (TypeError "expected bytes, HTTPResponse found").

(** What [from_payloads] gives back.  The converter is chosen by the
    payload's [encoding] and the type hint does not bind it: the converter of
    [binary/plain] gives the data as [bytes], the one of [binary/null] gives
    [None], the protobuf converters give the message. *)
Inductive converted : Type :=
  | AsRemotePayload (record : RemotePayload)
  | AsBytes (b : bytes)
  | AsNone.

(** [remote_payload.key] (line 83) is the first attribute read of the
    converted value: [bytes] and [None] have no such attribute. *)
Definition no_attribute_key (type_name : string) : exn :=
  AttributeError ("'" +:+ type_name +:+ "' object has no attribute 'key'").

Definition attributes (v : converted) : result RemotePayload :=
  match v with
  | AsRemotePayload record => Ok record
  | AsBytes _ => Raise (no_attribute_key "bytes")
  | AsNone => Raise (no_attribute_key "NoneType")
  end.

(** ** The collaborators the codec calls but does not define

    The digest function, Temporal's [DefaultPayloadConverter] (restricted to
    the one-element lists the codec passes, with the [[0]] the codec takes;
    [from_payloads] raises or gives back a [converted] value, which need not
    be of the hinted type) and the remote store, which answers a request
    knowing the requests it has seen before. *)
Class Runtime : Type := {
  sha256_hexdigest : bytes -> string;
  to_payloads : RemotePayload -> result Payload;
  from_payloads : Payload -> result converted;
  respond : list Request -> Request -> result Response
}.

(** ** Computations: the requests sent so far are the only state *)

Definition IO (A : Type) : Type := list Request -> result A * list Request.

#[export] Instance result_ret : MRet result := fun A a => Ok a.
#[export] Instance result_bind : MBind result := fun A B f r =>
  match r with Ok a => f a | Raise e => Raise e end.

#[export] Instance IO_ret : MRet IO := fun A a sent => (Ok a, sent).
#[export] Instance IO_bind : MBind IO := fun A B f m sent =>
  match m sent with
  | (Ok a, sent') => f a sent'
  | (Raise e, sent') => (Raise e, sent')
  end.

Definition lift {A} (r : result A) : IO A := fun sent => (r, sent).
Definition raise {A} (e : exn) : IO A := lift (Raise e).

(** The characters of a [str]: in UTF-8 a character is a byte that is not of
    the form 10xxxxxx together with the bytes of that form that follow it. *)
Definition utf8_continuation (c : ascii) : bool :=
  let n := Z.of_N (N_of_ascii c) in (128 <=? n) && (n <? 192).

Definition starts_in_character (s : string) : bool :=
  match s with
  | String c _ => utf8_continuation c
  | EmptyString => false
  end.

Fixpoint characters (s : string) : list string :=
  match s with
  | EmptyString => []
  | String c rest =>
      if starts_in_character rest then
        match characters rest with
        | tail :: others => String c tail :: others
        | [] => [String c EmptyString]
        end
      else String c EmptyString :: characters rest
  end.

(** [for k, vs in ...]: an element that is a [str] unpacks into its
    characters, and there must be two of them. *)
Definition unpack_pair (s : string) : result (string * string) :=
  match characters s with
  | [k; vs] => Ok (k, vs)
  | _ => Raise ValueError
  end.

Fixpoint unpack_pairs (l : list string) : result (list (string * string)) :=
  match l with
  | [] => Ok []
  | s :: rest =>
      kv ← unpack_pair s;
      kvs ← unpack_pairs rest;
      mret (kv :: kvs)
  end.

(** How [requests] turns [params] into the query before anything is sent:
    the items of a mapping; for any other iterable, its elements unpacked as
    pairs. *)
Definition encode_params (params : params_arg) : result (list (string * string)) :=
  match params with
  | ParamsDict items => Ok (map_to_list items)
  | ParamsSet items => unpack_pairs (elements items)
  end.

Definition send `{Runtime} (rq : Request) : IO Response :=
  fun sent => (respond sent rq, sent ++ [rq]).

Definition request `{Runtime} (rq : Request) : IO Response :=
  _ ← lift (encode_params (req_params rq));
  send rq.

Definition requests_put `{Runtime} (u : string) (body : bytes)
    (params : gmap string string) (headers : gmap string string) : IO Response :=
  request (mkRequest PUT u (ParamsDict params) headers (Some body)).

Definition requests_get `{Runtime} (u : string)
    (params : params_arg) (headers : gmap string string) : IO Response :=
  request (mkRequest GET u params headers None).

(** ** The codec *)

Definition MIN_LARGE_PAYLOAD_BYTES : Z := 128000.
Definition REMOTE_CODEC_NAME : string := "temporal.io/remote-codec".

Record LargePayloadCodec : Type := mkCodec {
  namespace : string;
  url : string;
  min_bytes : Z
}.

(** [__init__(self, namespace, url, min_bytes=MIN_LARGE_PAYLOAD_BYTES)];
    [None] is the call that leaves [min_bytes] out. *)
Definition LargePayloadCodec_init (namespace url : string) (min_bytes : option Z)
    : LargePayloadCodec :=
  mkCodec namespace url (default MIN_LARGE_PAYLOAD_BYTES min_bytes).

Section Codec.
Context `{Runtime}.

(** Lines 55 to 57: the value of the [X-Temporal-Metadata] header. *)
Definition metadata_header (m : gmap string bytes) : result string :=
  metadata_json ← json_dumps_metadata m;
  let b64_bytes := b64encode (str_encode metadata_json) in
  bytes_decode b64_bytes.

(** Lines 60 to 76: the upload and the payload returned for it. *)
Definition put_blob (self : LargePayloadCodec) (payload : Payload)
    (digest : string) (request_payload headers : gmap string string) : IO Payload :=
  resp ← requests_put (url self +:+ "v2/blobs/put") (data payload)
           request_payload headers;
  _ ← lift (raise_for_status resp);
  item ← lift (json_item resp "key");
  key ← lift (string_field item);
  lift (to_payloads {| rp_metadata := metadata payload;
                       rp_size := bytes_len (data payload);
                       rp_digest := digest;
                       rp_key := key |}).

Definition putLargePayload (self : LargePayloadCodec) (payload : Payload) : IO Payload :=
  let digest := "sha256:" +:+ sha256_hexdigest (data payload) in
  let request_payload : gmap string string :=
    {[ "digest" := digest; "namespace" := namespace self ]} in
  let headers : gmap string string :=
    {[ "Content-Type" := "application/octet-stream" ]} in
  b64_metadata ← lift (metadata_header (metadata payload));
  let headers := <[ "X-Temporal-Metadata" := b64_metadata ]> headers in
  put_blob self payload digest request_payload headers.

(** The address the download goes to (line 91). *)
Definition fetch_url (self : LargePayloadCodec) : string := url self +:+ "v2/blobs/put".

Definition getLargePayload (self : LargePayloadCodec) (payload : Payload) : IO Payload :=
  value ← lift (from_payloads payload);
  remote_payload ← lift (attributes value);
  let request_params : gset string := {[ "key"; rp_key remote_payload ]} in
  expected ← lift (b64decode_int (rp_size remote_payload) ≫= bytes_decode);
  let headers : gmap string string :=
    {[ "Content-Type" := "application/octet-stream";
       "X-Payload-Expected-Content-Length" := expected ]} in
  resp ← requests_get (fetch_url self) (ParamsSet request_params) headers;
  _ ← lift (raise_for_status resp);
  hexdigest ← lift (sha256_of_stream (raw resp));
  let digest := "sha256:" +:+ hexdigest in
  if negb (String.eqb digest (rp_digest remote_payload)) then
    raise (Exception ["Digests do not match. Wanted object sha:";
                      rp_digest remote_payload; "got: "; digest])
  else
    lift (Payload_of_stream (rp_metadata remote_payload) (raw resp)).

(** What [getLargePayload] raises: the converter's exception when it refuses
    the content, the [AttributeError] of line 83 when it gives back [bytes] or
    [None], the [TypeError] of line 86 when it gives back a record. *)
Definition rehydrate_error (payload : Payload) : exn :=
  match from_payloads payload with
  | Ok value =>
      match attributes value with
      | Ok _ => not_bytes_like
      | Raise e => e
      end
  | Raise e => e
  end.

(** [encode]: the loop of lines 29 to 33, [out] being [result]. *)
Fixpoint encode_loop (self : LargePayloadCodec) (payloads out : list Payload)
    : IO (list Payload) :=
  match payloads with
  | [] => mret out
  | payload :: rest =>
      if ByteSize payload >? min_bytes self then
        r ← putLargePayload self payload;
        encode_loop self rest (out ++ [r])
      else
        encode_loop self rest (out ++ [payload])
  end.

Definition encode (self : LargePayloadCodec) (payloads : list Payload)
    : IO (list Payload) :=
  encode_loop self payloads [].

(** [decode]: the loop of lines 38 to 44.  [metadata.get(name) != None]
    holds for every value stored under the name, the empty one included. *)
Fixpoint decode_loop (self : LargePayloadCodec) (payloads out : list Payload)
    : IO (list Payload) :=
  match payloads with
  | [] => mret out
  | payload :: rest =>
      match metadata payload !! REMOTE_CODEC_NAME with
      | Some _ =>
          r ← getLargePayload self payload;
          decode_loop self rest (out ++ [r])
      | None =>
          decode_loop self rest (out ++ [payload])
      end
  end.

Definition decode (self : LargePayloadCodec) (payloads : list Payload)
    : IO (list Payload) :=
  decode_loop self payloads [].

End Codec.

(** ** The same loops over objects

    Python hands [encode] and [decode] references to payload objects and
    [self] is an object with three attributes.  Here a payload object is a
    reference into [heap]; references below [next_ref] are the objects that
    exist, and construction takes the next one.  The loops receive and return
    references, and everything they could assign to is in the state. *)

Definition ref : Type := nat.

Record Objects : Type := mkObjects {
  self_obj : LargePayloadCodec;
  heap : ref -> Payload;
  next_ref : ref;
  wire : list Request
}.

Definition Obj (A : Type) : Type := Objects -> result A * Objects.

#[export] Instance Obj_ret : MRet Obj := fun A a s => (Ok a, s).
#[export] Instance Obj_bind : MBind Obj := fun A B f m s =>
  match m s with
  | (Ok a, s') => f a s'
  | (Raise e, s') => (Raise e, s')
  end.

(** Reading [self] and reading the payload behind a reference. *)
Definition this : Obj LargePayloadCodec := fun s => (Ok (self_obj s), s).
Definition load (l : ref) : Obj Payload := fun s => (Ok (heap s l), s).

(** A constructor call: the new object takes the next reference. *)
Definition new (p : Payload) : Obj ref := fun s =>
  (Ok (next_ref s),
   mkObjects (self_obj s)
             (fun l => if decide (l = next_ref s) then p else heap s l)
             (S (next_ref s)) (wire s)).

(** A computation that only talks to the remote store. *)
Definition perform {A} (m : IO A) : Obj A := fun s =>
  let (r, sent) := m (wire s) in
  (r, mkObjects (self_obj s) (heap s) (next_ref s) sent).

Section CodecObjects.
Context `{Runtime}.

Fixpoint encode_refs_loop (payloads out : list ref) : Obj (list ref) :=
  match payloads with
  | [] => mret out
  | l :: rest =>
      self ← this;
      payload ← load l;
      if ByteSize payload >? min_bytes self then
        r ← perform (putLargePayload self payload);
        l' ← new r;
        encode_refs_loop rest (out ++ [l'])
      else
        encode_refs_loop rest (out ++ [l])
  end.

Definition encode_refs (payloads : list ref) : Obj (list ref) :=
  encode_refs_loop payloads [].

Fixpoint decode_refs_loop (payloads out : list ref) : Obj (list ref) :=
  match payloads with
  | [] => mret out
  | l :: rest =>
      self ← this;
      payload ← load l;
      match metadata payload !! REMOTE_CODEC_NAME with
      | Some _ =>
          r ← perform (getLargePayload self payload);
          l' ← new r;
          decode_refs_loop rest (out ++ [l'])
      | None =>
          decode_refs_loop rest (out ++ [l])
      end
  end.

Definition decode_refs (payloads : list ref) : Obj (list ref) :=
  decode_refs_loop payloads [].

End CodecObjects.

(** ** What the claims are stated with *)

(** [decode(encode(payloads))] *)
Definition roundtrip `{Runtime} (self : LargePayloadCodec) (payloads : list Payload)
    : IO (list Payload) :=
  encoded ← encode self payloads;
  decode self encoded.

(** Which branch a loop takes for a payload. *)
Definition takes_upload (self : LargePayloadCodec) (p : Payload) : bool :=
  ByteSize p >? min_bytes self.

Definition takes_download (p : Payload) : bool :=
  bool_decide (is_Some (metadata p !! REMOTE_CODEC_NAME)).

(** What a run from [s] to [s'] leaves alone: the attributes of [self] and
    every object that existed in [s]. *)
Definition preserved (s s' : Objects) : Prop :=
  self_obj s' = self_obj s
  ∧ (∀ l, (l < next_ref s)%nat → heap s' l = heap s l)
  ∧ (next_ref s ≤ next_ref s')%nat.

(** An output reference against its input: the input itself on the
    pass-through branch, an object constructed during the run on the other. *)
Definition same_or_new (remote : Payload → bool) (s s' : Objects) (l l' : ref) : Prop :=
  if remote (heap s l) then (next_ref s ≤ l' < next_ref s')%nat else l' = l.

(** The result of a loop over objects against the result of the loop over
    values: the same payloads behind the references, or the same exception. *)
Definition agrees (s' : Objects) (r : result (list ref)) (v : result (list Payload)) : Prop :=
  match r, v with
  | Ok refs, Ok ps => heap s' <$> refs = ps
  | Raise e, Raise e' => e = e'
  | _, _ => False
  end.

(** Temporal's converter for protobuf messages ([json/protobuf]): it sets
    the two metadata keys below and nothing else; [render] is the JSON text
    of the message and [full_name] the message's registered name. *)
Definition json_proto_to_payloads (full_name : bytes)
    (render : RemotePayload -> bytes) (m : RemotePayload) : result Payload :=
  Ok (mkPayload {[ "encoding" := str_encode "json/protobuf";
                   "messageType" := full_name ]} (render m)).

(** The scenario of the specification: threshold 10, namespace [ns1], a
    payload of twenty [A]. *)
Definition codec_ns1 : LargePayloadCodec :=
  LargePayloadCodec_init "ns1" "http://localhost:8577/" (Some 10).

Definition payload_A20 : Payload :=
  mkPayload {[ "encoding" := str_encode "binary/plain" ]}
            (str_encode "AAAAAAAAAAAAAAAAAAAA").

(** The same codec with the threshold left to its default. *)
Definition codec_default : LargePayloadCodec :=
  LargePayloadCodec_init "ns1" "http://localhost:8577/" None.

(** Two bytes of data and no metadata: four bytes on the wire. *)
Definition payload_hi : Payload := mkPayload ∅ (str_encode "hi").

(** Two bytes of data under the usual encoding entry: 30 bytes on the wire. *)
Definition payload_hi_plain : Payload :=
  mkPayload {[ "encoding" := str_encode "binary/plain" ]} (str_encode "hi").

(** A payload that carries the marker with the empty value. *)
Definition payload_marked : Payload :=
  mkPayload {[ REMOTE_CODEC_NAME := [] ]} (str_encode "{}").

(** Metadata with a value that is not valid UTF-8. *)
Definition metadata_binary : gmap string bytes := {[ "k" := [xff; xfe] ]}.

(** ** A runtime for closed examples

    The converter reads one content as the reference record of
    [payload_A20] and refuses every other; the store accepts every upload
    under the key [blob-1] and answers every request with bytes that are not
    the ones stored; a constant stands for the digest. *)

#[export] Instance byte_eq_dec : EqDecision byte := Byte.byte_eq_dec.

Definition digest_A20 : string :=
  "sha256:edfcaac579024f574adbcaa3c13e4fd2b7f1797826afe679f2144af2cb5c062d".

Definition record_A20 : RemotePayload :=
  mkRemotePayload (metadata payload_A20) 20 digest_A20 "blob-1".

Definition reference_content : bytes := str_encode "{RemotePayload blob-1}".

Definition payload_reference : Payload :=
  mkPayload {[ REMOTE_CODEC_NAME := str_encode "v2";
               "encoding" := str_encode "json/protobuf" ]} reference_content.

Definition payload_reference_unmarked : Payload :=
  mkPayload {[ "encoding" := str_encode "json/protobuf" ]} reference_content.

Definition double_runtime : Runtime := {|
  sha256_hexdigest := fun _ =>
    "edfcaac579024f574adbcaa3c13e4fd2b7f1797826afe679f2144af2cb5c062d";
  to_payloads :=
    json_proto_to_payloads (str_encode "RemotePayload") (fun _ => reference_content);
  from_payloads := fun p =>
    if decide (data p = reference_content) then Ok (AsRemotePayload record_A20)
    else Raise (ConverterError "Unknown payload encoding");
  respond := fun _ _ =>
    Ok (mkResponse 200 (Some (JObject {[ "key" := JString "blob-1" ]}))
                   (Stream (str_encode "tampered")))
|}.

(** Two payload objects and a codec with the default threshold. *)
Definition objects_two : Objects :=
  mkObjects codec_default
            (fun l => match l with O => payload_hi | _ => payload_hi_plain end)
            2%nat [].

(** ** Names for the parts of the upload and more closed examples *)

(** The request of lines 60 to 65. *)
Definition upload_request (self : LargePayloadCodec) (payload : Payload)
    (request_payload headers : gmap string string) : Request :=
  mkRequest PUT (url self +:+ "v2/blobs/put") (ParamsDict request_payload) headers
            (Some (data payload)).

(** The record of lines 68 to 73. *)
Definition reference_record (payload : Payload) (digest key : string) : RemotePayload :=
  mkRemotePayload (metadata payload) (bytes_len (data payload)) digest key.

(** Ten bytes of data and no metadata: twelve bytes on the wire. *)
Definition payload_ten : Payload := mkPayload ∅ (str_encode "0123456789").

(** A payload of encoding [binary/plain] that carries the marker, and a
    runtime whose converter is the one of that encoding: it gives back the
    data as [bytes]. *)
Definition payload_plain_marked : Payload :=
  mkPayload {[ REMOTE_CODEC_NAME := str_encode "v2";
               "encoding" := str_encode "binary/plain" ]} (str_encode "hi").

Definition plain_runtime : Runtime := {|
  sha256_hexdigest := @sha256_hexdigest double_runtime;
  to_payloads := @to_payloads double_runtime;
  from_payloads := fun p => Ok (AsBytes (data p));
  respond := @respond double_runtime
|}.

(** A store that answers 503 although the body names a key, and a store that
    answers 200 with a JSON object that has no key. *)
Definition unavailable_runtime : Runtime := {|
  sha256_hexdigest := @sha256_hexdigest double_runtime;
  to_payloads := @to_payloads double_runtime;
  from_payloads := @from_payloads double_runtime;
  respond := fun _ _ =>
    Ok (mkResponse 503 (Some (JObject {[ "key" := JString "blob-1" ]})) (Stream []))
|}.

Definition keyless_runtime : Runtime := {|
  sha256_hexdigest := @sha256_hexdigest double_runtime;
  to_payloads := @to_payloads double_runtime;
  from_payloads := @from_payloads double_runtime;
  respond := fun _ _ =>
    Ok (mkResponse 200 (Some (JObject {[ "id" := JString "blob-1" ]})) (Stream []))
|}.

(** * Properties *)

(** ** The library calls *)

Example b64encode_rfc4648 :
  b64encode (str_encode "") = str_encode ""
  ∧ b64encode (str_encode "f") = str_encode "Zg=="
  ∧ b64encode (str_encode "fo") = str_encode "Zm8="
  ∧ b64encode (str_encode "foo") = str_encode "Zm9v"
  ∧ b64encode (str_encode "foobar") = str_encode "Zm9vYmFy"
  ∧ b64encode [xff; xfe] = str_encode "//4=".
Proof. repeat split. Qed.

Example bytes_decode_examples :
  bytes_decode (str_encode "e30=") = Ok "e30="
  ∧ bytes_decode [xc3; xa9] = Ok (string_of_list_byte [xc3; xa9])
  ∧ bytes_decode [xff; xfe] = Raise UnicodeDecodeError
  ∧ bytes_decode [xc0; x80] = Raise UnicodeDecodeError
  ∧ bytes_decode [xed; xa0; x80] = Raise UnicodeDecodeError
  ∧ bytes_decode [xe2; x82] = Raise UnicodeDecodeError.
Proof. repeat split. Qed.

Lemma utf8_run_ascii (s : bytes) :
  Forall (fun b => byte_val b < 128) s → utf8_run utf8_start s = true.
Proof.
  induction 1 as [|b s Hb _ IH]; [reflexivity|].
  cbn [utf8_run]. unfold utf8_step. cbn [owed utf8_start].
  replace (byte_val b <? 128) with true by (symmetry; lia). exact IH.
Qed.

Lemma b64_char_ascii n : byte_val (b64_char n) < 128.
Proof.
  unfold b64_char.
  assert (Forall (fun b => byte_val b < 128) b64_alphabet) as Hall
    by (repeat constructor).
  generalize (Z.to_nat (Z.land n 63)). intros i.
  destruct (nth_in_or_default i b64_alphabet b64_pad) as [Hin| ->]; [|reflexivity].
  rewrite Forall_forall in Hall. apply Hall. by apply list_elem_of_In.
Qed.

(** The output of [b64encode] is ASCII, so the [decode()] of line 57 cannot
    raise. *)
Lemma b64encode_ascii (s : bytes) : Forall (fun b => byte_val b < 128) (b64encode s).
Proof.
  assert (byte_val b64_pad < 128) as Hpad by reflexivity.
  pose proof b64_char_ascii as Hchar.
  assert (∀ n (s : bytes), (length s < n)%nat →
            Forall (fun b => byte_val b < 128) (b64encode s)) as Hlen.
  { induction n as [|n IH]; intros t Ht; [lia|].
    destruct t as [|a [|b [|c rest]]]; cbn [b64encode]; repeat constructor; auto.
    apply IH. simpl in Ht. lia. }
  apply (Hlen (S (length s))). lia.
Qed.

Lemma b64encode_decodes (s : bytes) :
  bytes_decode (b64encode s) = Ok (string_of_list_byte (b64encode s)).
Proof. unfold bytes_decode. by rewrite utf8_run_ascii by apply b64encode_ascii. Qed.

(** ** Sizes *)

Lemma varint_size_pos n : 1 ≤ varint_size n.
Proof.
  unfold varint_size. destruct (Z.leb_spec n 0) as [|Hn]; [lia|].
  pose proof (Z.log2_nonneg n).
  assert (0 ≤ Z.log2 n / 7) by (apply Z.div_pos; lia). lia.
Qed.

Lemma delimited_size_lower len : len + 2 ≤ delimited_size len.
Proof. unfold delimited_size. pose proof (varint_size_pos len). lia. Qed.

Lemma entry_size_nonneg k v : 0 ≤ entry_size k v.
Proof.
  unfold entry_size, str_len, bytes_len.
  pose proof (delimited_size_lower (Z.of_nat (String.length k))).
  pose proof (delimited_size_lower (Z.of_nat (length v))). lia.
Qed.

Lemma metadata_size_nonneg (m : gmap string bytes) : 0 ≤ metadata_size m.
Proof.
  unfold metadata_size.
  apply (map_fold_weak_ind (fun acc _ => 0 ≤ acc)); [lia|].
  intros k v m' acc _ IH.
  pose proof (delimited_size_lower (entry_size k v)).
  pose proof (entry_size_nonneg k v). lia.
Qed.

(** The wire size is at least the length of the data field. *)
Lemma data_len_le_ByteSize payload : bytes_len (data payload) ≤ ByteSize payload.
Proof.
  unfold ByteSize. pose proof (metadata_size_nonneg (metadata payload)).
  destruct (data payload) as [|b rest] eqn:E.
  - unfold bytes_len. simpl. lia.
  - pose proof (delimited_size_lower (bytes_len (b :: rest))). lia.
Qed.

(** A varint has as many bytes as its value has groups of seven bits. *)
Lemma varint_size_bounds n :
  0 < n → 2 ^ (7 * (varint_size n - 1)) ≤ n < 2 ^ (7 * varint_size n).
Proof.
  intros Hn. unfold varint_size.
  destruct (Z.leb_spec n 0) as [|_]; [lia|].
  pose proof (Z.log2_nonneg n) as Hl.
  destruct (Z.log2_spec n Hn) as [Hlo Hhi].
  pose proof (Z.div_mod (Z.log2 n) 7 ltac:(lia)) as Hdiv.
  pose proof (Z.mod_pos_bound (Z.log2 n) 7 ltac:(lia)) as Hmod.
  assert (0 ≤ Z.log2 n / 7) as Hq by (apply Z.div_pos; lia).
  split.
  - eapply Z.le_trans; [|exact Hlo]. apply Z.pow_le_mono_r; lia.
  - eapply Z.lt_le_trans; [exact Hhi|]. apply Z.pow_le_mono_r; lia.
Qed.

(** Each metadata entry under a new key adds its own field to the wire. *)
Lemma metadata_size_insert (m : gmap string bytes) k v :
  m !! k = None →
  metadata_size (<[k := v]> m) = delimited_size (entry_size k v) + metadata_size m.
Proof.
  intros Hfresh. unfold metadata_size.
  rewrite map_fold_insert_L; [done | | done].
  intros j1 j2 z1 z2 y _ _ _. lia.
Qed.

Example ByteSize_examples :
  ByteSize payload_hi = 4
  ∧ ByteSize payload_hi_plain = 30
  ∧ ByteSize payload_A20 = 48
  ∧ ByteSize (mkPayload ∅ []) = 0
  ∧ varint_size 127 = 1 ∧ varint_size 128 = 2
  ∧ varint_size 16383 = 2 ∧ varint_size 16384 = 3.
Proof. repeat split; by vm_compute. Qed.

(** ** The two remote calls *)

Section RemoteCalls.
Context `{Runtime}.

Lemma putLargePayload_raises self payload sent :
  putLargePayload self payload sent = (Raise not_serializable, sent).
Proof. reflexivity. Qed.

Lemma getLargePayload_raises self payload sent :
  getLargePayload self payload sent = (Raise (rehydrate_error payload), sent).
Proof.
  unfold getLargePayload, rehydrate_error, mbind, IO_bind, lift.
  destruct (from_payloads payload) as [value|e]; [|reflexivity].
  destruct (attributes value); reflexivity.
Qed.

End RemoteCalls.

(** ** The loops *)

Section Loops.
Context `{Runtime}.

Lemma encode_loop_cons self p rest out sent :
  encode_loop self (p :: rest) out sent =
  if ByteSize p >? min_bytes self then
    match putLargePayload self p sent with
    | (Ok r, sent') => encode_loop self rest (out ++ [r]) sent'
    | (Raise e, sent') => (Raise e, sent')
    end
  else encode_loop self rest (out ++ [p]) sent.
Proof. cbn [encode_loop]. destruct (ByteSize p >? min_bytes self); reflexivity. Qed.

Lemma decode_loop_cons self p rest out sent :
  decode_loop self (p :: rest) out sent =
  match metadata p !! REMOTE_CODEC_NAME with
  | Some _ =>
      match getLargePayload self p sent with
      | (Ok r, sent') => decode_loop self rest (out ++ [r]) sent'
      | (Raise e, sent') => (Raise e, sent')
      end
  | None => decode_loop self rest (out ++ [p]) sent
  end.
Proof. cbn [decode_loop]. destruct (metadata p !! REMOTE_CODEC_NAME); reflexivity. Qed.

(** A batch in which no payload takes the remote branch comes back as it is,
    and nothing is sent. *)
Lemma encode_loop_small self payloads : ∀ out sent,
  Forall (fun p => ByteSize p ≤ min_bytes self) payloads →
  encode_loop self payloads out sent = (Ok (out ++ payloads), sent).
Proof.
  induction payloads as [|p rest IH]; intros out sent Hall.
  - by rewrite app_nil_r.
  - inversion Hall as [|? ? Hp Hrest]; subst.
    rewrite encode_loop_cons.
    replace (ByteSize p >? min_bytes self) with false by (symmetry; lia).
    rewrite IH by done. by rewrite <- app_assoc.
Qed.

Lemma decode_loop_unmarked self payloads : ∀ out sent,
  Forall (fun p => metadata p !! REMOTE_CODEC_NAME = None) payloads →
  decode_loop self payloads out sent = (Ok (out ++ payloads), sent).
Proof.
  induction payloads as [|p rest IH]; intros out sent Hall.
  - by rewrite app_nil_r.
  - inversion Hall as [|? ? Hp Hrest]; subst.
    rewrite decode_loop_cons, Hp, IH by done. by rewrite <- app_assoc.
Qed.

End Loops.

(** ** The loops over objects *)

Lemma Forall2_Forall_impl {A B} (P : A → Prop) (R R' : A → B → Prop) xs ys :
  Forall P xs → Forall2 R xs ys → (∀ x y, P x → R x y → R' x y) → Forall2 R' xs ys.
Proof.
  intros HP HR Himp. induction HR as [|x y xs ys Hxy _ IH]; [constructor|].
  inversion HP; subst. constructor; auto.
Qed.

Lemma preserved_refl s : preserved s s.
Proof. repeat split; auto. Qed.

Lemma preserved_trans s1 s2 s3 : preserved s1 s2 → preserved s2 s3 → preserved s1 s3.
Proof.
  intros (Hc1 & Hh1 & Hn1) (Hc2 & Hh2 & Hn2). repeat split.
  - congruence.
  - intros l Hl. rewrite Hh2 by lia. by apply Hh1.
  - lia.
Qed.

Lemma preserved_perform {A} (m : IO A) s : preserved s (perform m s).2.
Proof. unfold perform. destruct (m (wire s)). repeat split; simpl; auto. Qed.

Lemma preserved_new p s : preserved s (new p s).2.
Proof.
  repeat split; simpl; [|lia]. intros l Hl. case_decide; [lia | done].
Qed.

Section ObjectLoops.
Context `{Runtime}.

Lemma encode_refs_loop_cons l rest out s :
  encode_refs_loop (l :: rest) out s =
  if takes_upload (self_obj s) (heap s l) then
    match perform (putLargePayload (self_obj s) (heap s l)) s with
    | (Ok r, s1) => encode_refs_loop rest (out ++ [next_ref s1]) (new r s1).2
    | (Raise e, s1) => (Raise e, s1)
    end
  else encode_refs_loop rest (out ++ [l]) s.
Proof.
  cbn [encode_refs_loop]. unfold takes_upload, mbind, Obj_bind, this, load. cbn beta iota.
  destruct (ByteSize (heap s l) >? min_bytes (self_obj s)); [|reflexivity].
  destruct (perform _ s) as [[r|e] s1]; reflexivity.
Qed.

Lemma decode_refs_loop_cons l rest out s :
  decode_refs_loop (l :: rest) out s =
  if takes_download (heap s l) then
    match perform (getLargePayload (self_obj s) (heap s l)) s with
    | (Ok r, s1) => decode_refs_loop rest (out ++ [next_ref s1]) (new r s1).2
    | (Raise e, s1) => (Raise e, s1)
    end
  else decode_refs_loop rest (out ++ [l]) s.
Proof.
  cbn [decode_refs_loop]. unfold takes_download, mbind, Obj_bind, this, load. cbn beta iota.
  destruct (metadata (heap s l) !! REMOTE_CODEC_NAME) as [v|] eqn:Hm.
  - rewrite bool_decide_eq_true_2 by eauto.
    destruct (perform _ s) as [[r|e] s1]; reflexivity.
  - rewrite bool_decide_eq_false_2 by (intros [? ?]; done). reflexivity.
Qed.

End ObjectLoops.

(** Both loops over objects have one shape: a test on the payload, a remote
    call and a construction on one branch, the input reference on the other.
    What the run preserves is proved once for the shape. *)
Section LoopShape.
Variable remote : LargePayloadCodec → Payload → bool.
Variable call : LargePayloadCodec → Payload → IO Payload.
Variable loop : list ref → list ref → Obj (list ref).
Hypothesis loop_nil : ∀ out s, loop [] out s = (Ok out, s).
Hypothesis loop_cons : ∀ l rest out s,
  loop (l :: rest) out s =
  if remote (self_obj s) (heap s l) then
    match perform (call (self_obj s) (heap s l)) s with
    | (Ok r, s1) => loop rest (out ++ [next_ref s1]) (new r s1).2
    | (Raise e, s1) => (Raise e, s1)
    end
  else loop rest (out ++ [l]) s.

Lemma same_or_new_later s s1 s' x y :
  preserved s s1 → preserved s1 s' → (x < next_ref s)%nat →
  same_or_new (remote (self_obj s1)) s1 s' x y →
  same_or_new (remote (self_obj s)) s s' x y.
Proof.
  intros (Hc & Hh & Hn) _ Hx. unfold same_or_new.
  rewrite Hc, (Hh x Hx). destruct (remote _ _); [lia | done].
Qed.

Lemma loop_preserves payloads : ∀ out s,
  Forall (fun l => (l < next_ref s)%nat) payloads →
  preserved s (loop payloads out s).2
  ∧ match (loop payloads out s).1 with
    | Ok res =>
        ∃ tail, res = out ++ tail
          ∧ Forall2 (same_or_new (remote (self_obj s)) s (loop payloads out s).2)
                    payloads tail
    | Raise _ => True
    end.
Proof.
  induction payloads as [|l rest IH]; intros out s Hlive.
  - rewrite loop_nil. split; [apply preserved_refl|].
    exists []. split; [by rewrite app_nil_r | constructor].
  - inversion Hlive as [|? ? Hl Hrest]; subst.
    rewrite loop_cons. destruct (remote (self_obj s) (heap s l)) eqn:Hrem.
    + pose proof (preserved_perform (call (self_obj s) (heap s l)) s) as Hs1.
      destruct (perform (call (self_obj s) (heap s l)) s) as [[r|e] s1];
        simpl in Hs1; [|by split].
      pose proof (preserved_new r s1) as Hs2.
      set (s2 := (new r s1).2) in *.
      assert (preserved s s2) as Hs by (eapply preserved_trans; eauto).
      assert (next_ref s2 = S (next_ref s1)) as Hnext by reflexivity.
      destruct (IH (out ++ [next_ref s1]) s2) as [Hkeep Hout].
      { eapply Forall_impl; [exact Hrest|]. intros x Hx. simpl in Hx.
        destruct Hs as (_ & _ & ?). lia. }
      split; [eapply preserved_trans; eauto|].
      destruct (loop rest (out ++ [next_ref s1]) s2).1 as [res|e]; [|done].
      destruct Hout as (tail & -> & Htail). exists (next_ref s1 :: tail).
      split; [by rewrite <- app_assoc|]. constructor.
      * unfold same_or_new. rewrite Hrem.
        destruct Hs1 as (_ & _ & ?), Hkeep as (_ & _ & ?). lia.
      * eapply Forall2_Forall_impl; [exact Hrest | exact Htail |].
        intros x y Hx Hxy. by eapply same_or_new_later.
    + destruct (IH (out ++ [l]) s Hrest) as [Hkeep Hout].
      split; [done|].
      destruct (loop rest _ s).1 as [res|e]; [|done].
      destruct Hout as (tail & -> & Htail). exists (l :: tail).
      split; [by rewrite <- app_assoc|]. constructor; [|done].
      unfold same_or_new. by rewrite Hrem.
Qed.

End LoopShape.

(** The loops over objects compute what the loops over values compute: the
    payloads behind the returned references are the payloads [encode] and
    [decode] return, the exception is the same, and so are the requests. *)
Section LoopRefines.
Variable remote : LargePayloadCodec → Payload → bool.
Variable call : LargePayloadCodec → Payload → IO Payload.
Variable loop : list ref → list ref → Obj (list ref).
Variable vloop : LargePayloadCodec → list Payload → list Payload → IO (list Payload).
Hypothesis loop_nil : ∀ out s, loop [] out s = (Ok out, s).
Hypothesis loop_cons : ∀ l rest out s,
  loop (l :: rest) out s =
  if remote (self_obj s) (heap s l) then
    match perform (call (self_obj s) (heap s l)) s with
    | (Ok r, s1) => loop rest (out ++ [next_ref s1]) (new r s1).2
    | (Raise e, s1) => (Raise e, s1)
    end
  else loop rest (out ++ [l]) s.
Hypothesis vloop_nil : ∀ self out sent, vloop self [] out sent = (Ok out, sent).
Hypothesis vloop_cons : ∀ self p rest out sent,
  vloop self (p :: rest) out sent =
  if remote self p then
    match call self p sent with
    | (Ok r, sent') => vloop self rest (out ++ [r]) sent'
    | (Raise e, sent') => (Raise e, sent')
    end
  else vloop self rest (out ++ [p]) sent.

Lemma fmap_heap_new (r : Payload) s1 (ls : list ref) :
  Forall (fun l => (l < next_ref s1)%nat) ls →
  heap (new r s1).2 <$> ls = heap s1 <$> ls.
Proof.
  intros Hlive. apply list_fmap_ext. intros i l Hl.
  pose proof (Forall_lookup_1 _ _ _ _ Hlive Hl) as Hlt. simpl in *.
  case_decide; [lia | done].
Qed.

Lemma loop_refines payloads : ∀ out s,
  Forall (fun l => (l < next_ref s)%nat) payloads →
  Forall (fun l => (l < next_ref s)%nat) out →
  wire (loop payloads out s).2
    = (vloop (self_obj s) (heap s <$> payloads) (heap s <$> out) (wire s)).2
  ∧ agrees (loop payloads out s).2 (loop payloads out s).1
      (vloop (self_obj s) (heap s <$> payloads) (heap s <$> out) (wire s)).1.
Proof.
  induction payloads as [|l rest IH]; intros out s Hlive Hout.
  - rewrite loop_nil. simpl. rewrite vloop_nil. by split.
  - inversion Hlive as [|? ? Hl Hrest]; subst.
    rewrite loop_cons. rewrite fmap_cons, vloop_cons.
    destruct (remote (self_obj s) (heap s l)).
    + unfold perform.
      destruct (call (self_obj s) (heap s l) (wire s)) as [[r|e] sent']; [|by split].
      set (s1 := mkObjects (self_obj s) (heap s) (next_ref s) sent').
      assert (Forall (fun x => (x < next_ref s1)%nat) rest) as Hrest1 by exact Hrest.
      assert (Forall (fun x => (x < next_ref s1)%nat) out) as Hout1 by exact Hout.
      destruct (IH (out ++ [next_ref s1]) (new r s1).2) as [Hw Hag].
      { eapply Forall_impl; [exact Hrest1|]. simpl. intros; lia. }
      { apply Forall_app. split.
        - eapply Forall_impl; [exact Hout1|]. simpl. intros; lia.
        - repeat constructor. }
      rewrite fmap_app, !fmap_heap_new in Hw, Hag by done.
      replace (heap (new r s1).2 <$> [next_ref s1]) with [r] in Hw, Hag
        by (simpl; by rewrite decide_True).
      by split.
    + destruct (IH (out ++ [l]) s Hrest) as [Hw Hag].
      { apply Forall_app. split; [done | by repeat constructor]. }
      rewrite fmap_app in Hw, Hag. by split.
Qed.

End LoopRefines.

Section ObjectRuns.
Context `{Runtime}.

Lemma decode_loop_cons_if self p rest out sent :
  decode_loop self (p :: rest) out sent =
  if takes_download p then
    match getLargePayload self p sent with
    | (Ok r, sent') => decode_loop self rest (out ++ [r]) sent'
    | (Raise e, sent') => (Raise e, sent')
    end
  else decode_loop self rest (out ++ [p]) sent.
Proof.
  rewrite decode_loop_cons. unfold takes_download.
  destruct (metadata p !! REMOTE_CODEC_NAME) as [v|] eqn:Hm.
  - by rewrite bool_decide_eq_true_2 by eauto.
  - by rewrite bool_decide_eq_false_2 by (intros [? ?]; done).
Qed.

Lemma encode_refs_preserves payloads s :
  Forall (fun l => (l < next_ref s)%nat) payloads →
  preserved s (encode_refs payloads s).2
  ∧ match (encode_refs payloads s).1 with
    | Ok out =>
        Forall2 (same_or_new (takes_upload (self_obj s)) s (encode_refs payloads s).2)
                payloads out
    | Raise _ => True
    end.
Proof.
  intros Hlive. unfold encode_refs.
  destruct (loop_preserves takes_upload putLargePayload encode_refs_loop
              (fun _ _ => eq_refl) encode_refs_loop_cons payloads [] s Hlive)
    as [Hkeep Hout].
  split; [done|].
  destruct (encode_refs_loop payloads [] s).1; [|done].
  by destruct Hout as (tail & -> & Htail).
Qed.

Lemma decode_refs_preserves payloads s :
  Forall (fun l => (l < next_ref s)%nat) payloads →
  preserved s (decode_refs payloads s).2
  ∧ match (decode_refs payloads s).1 with
    | Ok out =>
        Forall2 (same_or_new takes_download s (decode_refs payloads s).2) payloads out
    | Raise _ => True
    end.
Proof.
  intros Hlive. unfold decode_refs.
  destruct (loop_preserves (fun _ => takes_download) getLargePayload decode_refs_loop
              (fun _ _ => eq_refl) decode_refs_loop_cons payloads [] s Hlive)
    as [Hkeep Hout].
  split; [done|].
  destruct (decode_refs_loop payloads [] s).1; [|done].
  by destruct Hout as (tail & -> & Htail).
Qed.

Lemma encode_refs_refines payloads s :
  Forall (fun l => (l < next_ref s)%nat) payloads →
  wire (encode_refs payloads s).2 = (encode (self_obj s) (heap s <$> payloads) (wire s)).2
  ∧ agrees (encode_refs payloads s).2 (encode_refs payloads s).1
      (encode (self_obj s) (heap s <$> payloads) (wire s)).1.
Proof.
  intros Hlive.
  exact (loop_refines takes_upload putLargePayload encode_refs_loop encode_loop
           (fun _ _ => eq_refl) encode_refs_loop_cons
           (fun _ _ _ => eq_refl) encode_loop_cons payloads [] s Hlive (Forall_nil_2 _)).
Qed.

Lemma decode_refs_refines payloads s :
  Forall (fun l => (l < next_ref s)%nat) payloads →
  wire (decode_refs payloads s).2 = (decode (self_obj s) (heap s <$> payloads) (wire s)).2
  ∧ agrees (decode_refs payloads s).2 (decode_refs payloads s).1
      (decode (self_obj s) (heap s <$> payloads) (wire s)).1.
Proof.
  intros Hlive.
  exact (loop_refines (fun _ => takes_download) getLargePayload decode_refs_loop decode_loop
           (fun _ _ => eq_refl) decode_refs_loop_cons
           (fun _ _ _ => eq_refl) decode_loop_cons_if payloads [] s Hlive (Forall_nil_2 _)).
Qed.

End ObjectRuns.

(** ** Offload and rehydration *)

Lemma append_inj_r (s a b : string) : s +:+ a = s +:+ b → a = b.
Proof. induction s as [|c s IH]; simpl; [done|]. intros [=]. auto. Qed.

(** C1.  The offload round trip does not recover the payload: for every
    payload whose data is longer than the threshold, [decode(encode([P]))]
    raises the [TypeError] of [json.dumps] (line 55) and the requests sent
    are the ones sent before, so there is no store call and no fetch call. *)
Theorem offload_roundtrip_raises `{Runtime} self payload sent :
  bytes_len (data payload) > min_bytes self →
  roundtrip self [payload] sent = (Raise not_serializable, sent).
Proof.
  intros Hlarge. pose proof (data_len_le_ByteSize payload) as Hsize.
  unfold roundtrip, encode, mbind, IO_bind.
  rewrite encode_loop_cons.
  replace (ByteSize payload >? min_bytes self) with true by (symmetry; lia).
  by rewrite putLargePayload_raises.
Qed.

Lemma offload_roundtrip_raises_witness :
  bytes_len (data payload_A20) > min_bytes codec_ns1
  ∧ ∀ (R : Runtime) sent,
      roundtrip codec_ns1 [payload_A20] sent = (Raise not_serializable, sent).
Proof.
  split; [reflexivity|].
  intros R sent. apply offload_roundtrip_raises. reflexivity.
Defined.

(** C2.  A payload that carries the marker and whose content the converter
    reads as a reference record is never checked against its digest:
    [decode] raises the [TypeError] of [base64.b64decode] on an [int]
    (line 86) before any request is sent, whatever the store would answer;
    the exception is not the one of the digest comparison (line 102). *)
Theorem decode_reference_raises_before_fetch `{Runtime} self payload v record sent :
  metadata payload !! REMOTE_CODEC_NAME = Some v →
  from_payloads payload = Ok (AsRemotePayload record) →
  decode self [payload] sent = (Raise not_bytes_like, sent)
  ∧ ∀ args, not_bytes_like ≠ Exception args.
Proof.
  intros Hmark Hrecord. split; [|done].
  unfold decode. rewrite decode_loop_cons, Hmark, getLargePayload_raises.
  unfold rehydrate_error. by rewrite Hrecord.
Qed.

Lemma decode_reference_raises_before_fetch_witness :
  metadata payload_reference !! REMOTE_CODEC_NAME = Some (str_encode "v2")
  ∧ @from_payloads double_runtime payload_reference = Ok (AsRemotePayload record_A20)
  ∧ @decode double_runtime codec_ns1 [payload_reference] [] = (Raise not_bytes_like, [])
  ∧ ∀ args, not_bytes_like ≠ Exception args.
Proof.
  split; [reflexivity|]. split; [reflexivity|].
  apply (@decode_reference_raises_before_fetch double_runtime codec_ns1
           payload_reference (str_encode "v2") record_A20 []); reflexivity.
Defined.

(** The upload part of the offload (lines 60 to 76) returns the converter's
    payload as it is. *)
Lemma put_blob_returns_converted `{Runtime} self payload digest params headers sent r sent' :
  put_blob self payload digest params headers sent = (Ok r, sent') →
  ∃ key, to_payloads (mkRemotePayload (metadata payload) (bytes_len (data payload))
                                      digest key) = Ok r.
Proof.
  unfold put_blob, requests_put, request, send, mbind, IO_bind, lift. simpl.
  destruct (respond sent _) as [resp|e]; [|done].
  destruct (raise_for_status resp); [|done].
  destruct (json_item resp "key") as [item|e]; [|done].
  destruct (string_field item) as [key|e]; [|done].
  intros [= Hr _]. by exists key.
Qed.

(** C3.  The offload path of [encode] produces no payload with the marker:
    [putLargePayload] raises for every payload; the part that builds the
    reference payload (lines 68 to 76) returns what the converter made of the
    record, with no key added; and what Temporal's protobuf converter makes
    has the keys [encoding] and [messageType] only, so [decode] passes it
    through as application data. *)
Theorem offload_output_carries_no_marker `{Runtime} self :
  (∀ payload sent, putLargePayload self payload sent = (Raise not_serializable, sent))
  ∧ (∀ payload digest params headers sent r sent',
       put_blob self payload digest params headers sent = (Ok r, sent') →
       ∃ key, to_payloads (mkRemotePayload (metadata payload) (bytes_len (data payload))
                                           digest key) = Ok r)
  ∧ (∀ full_name render record,
       ∃ r, json_proto_to_payloads full_name render record = Ok r
            ∧ metadata r !! REMOTE_CODEC_NAME = None
            ∧ ∀ sent, decode self [r] sent = (Ok [r], sent)).
Proof.
  split; [intros; apply putLargePayload_raises|].
  split; [intros *; apply put_blob_returns_converted|].
  intros full_name render record. eexists. split; [reflexivity|].
  assert (({[ "encoding" := str_encode "json/protobuf"; "messageType" := full_name ]}
            : gmap string bytes) !! REMOTE_CODEC_NAME = None) as Hnone.
  { rewrite lookup_insert_ne by done. by rewrite lookup_singleton_ne. }
  split; [exact Hnone|].
  intros sent. unfold decode. rewrite decode_loop_cons. simpl metadata.
  by rewrite Hnone.
Qed.

(** With the runtime of the closed examples the upload succeeds, and what it
    returns for [payload_A20] has no marker: decoding it sends nothing and
    gives the reference payload back, not the twenty bytes. *)
Example put_blob_unmarked :
  ∃ r sent,
    @put_blob double_runtime codec_ns1 payload_A20 digest_A20 ∅ ∅ [] = (Ok r, sent)
    ∧ length sent = 1%nat
    ∧ metadata r !! REMOTE_CODEC_NAME = None
    ∧ @decode double_runtime codec_ns1 [r] sent = (Ok [r], sent)
    ∧ r ≠ payload_A20.
Proof.
  eexists _, _. split; [reflexivity|]. split; [reflexivity|].
  split; [by vm_compute|]. split; [by vm_compute|].
  intros Heq. apply (f_equal data) in Heq. vm_compute in Heq. discriminate.
Qed.

(** ** Pass-through *)

(** C4, as the code has it.  A payload whose serialised size is at most the
    threshold and which does not carry the marker key goes through [encode]
    and through [decode] unchanged, and nothing is sent. *)
Theorem small_unmarked_roundtrip `{Runtime} self payload sent :
  ByteSize payload ≤ min_bytes self →
  metadata payload !! REMOTE_CODEC_NAME = None →
  encode self [payload] sent = (Ok [payload], sent)
  ∧ decode self [payload] sent = (Ok [payload], sent)
  ∧ roundtrip self [payload] sent = (Ok [payload], sent).
Proof.
  intros Hsmall Hplain.
  assert (encode self [payload] sent = (Ok [payload], sent)) as Henc.
  { apply (encode_loop_small self [payload] [] sent). by repeat constructor. }
  assert (decode self [payload] sent = (Ok [payload], sent)) as Hdec.
  { apply (decode_loop_unmarked self [payload] [] sent). by repeat constructor. }
  repeat split; [done | done |].
  unfold roundtrip, mbind, IO_bind. by rewrite Henc.
Qed.

Lemma small_unmarked_roundtrip_witness :
  ByteSize payload_hi_plain ≤ min_bytes codec_default
  ∧ metadata payload_hi_plain !! REMOTE_CODEC_NAME = None
  ∧ ∀ (R : Runtime) sent,
      roundtrip codec_default [payload_hi_plain] sent = (Ok [payload_hi_plain], sent).
Proof.
  split; [by vm_compute|]. split; [reflexivity|].
  intros R sent.
  apply (small_unmarked_roundtrip codec_default payload_hi_plain sent);
    [by vm_compute | reflexivity].
Defined.

(** C4, as it is written, fails on two payloads whose data is two bytes
    long.  One carries the marker key: [encode] passes it through and
    [decode] then takes the rehydration path and raises.  The other has
    metadata that brings its serialised size over a threshold of ten:
    [encode] takes the offload path and does not return it. *)
Lemma small_data_roundtrip_fails :
  (bytes_len (data payload_marked) ≤ min_bytes codec_default
   ∧ ∀ (R : Runtime) sent,
       roundtrip codec_default [payload_marked] sent ≠ (Ok [payload_marked], sent))
  ∧ (bytes_len (data payload_hi_plain) ≤ min_bytes codec_ns1
     ∧ ∀ (R : Runtime) sent,
         encode codec_ns1 [payload_hi_plain] sent ≠ (Ok [payload_hi_plain], sent)).
Proof.
  split; (split; [by vm_compute|]); intros R sent.
  - unfold roundtrip, mbind, IO_bind.
    rewrite (encode_loop_small codec_default [payload_marked] [] sent)
      by (repeat constructor; by vm_compute).
    cbn [app]. unfold decode. rewrite decode_loop_cons.
    replace (metadata payload_marked !! REMOTE_CODEC_NAME) with (Some ([] : bytes))
      by reflexivity.
    by rewrite getLargePayload_raises.
  - unfold encode. rewrite encode_loop_cons.
    replace (ByteSize payload_hi_plain >? min_bytes codec_ns1) with true
      by reflexivity.
    by rewrite putLargePayload_raises.
Qed.

(** C5.  The threshold is 128000 when the constructor is not given one and
    the given value otherwise; [encode] offloads exactly when the serialised
    size of the whole payload exceeds it.  That size is the length of the
    protobuf encoding, metadata included: nothing for an empty payload; for
    the data, when there is any, a tag byte, the varint of its length and the
    data; for every metadata entry a tag byte, the varint of the entry's
    length and the entry, which is the key and the value each with a tag byte
    and the varint of its length; a varint has one byte for every seven
    bits of its value.  So the size is never below the length of the data, and a
    payload of two data bytes with one metadata entry is above a threshold
    of ten. *)
Theorem encode_compares_ByteSize `{Runtime} :
  (∀ ns u, min_bytes (LargePayloadCodec_init ns u None) = 128000)
  ∧ (∀ ns u n, min_bytes (LargePayloadCodec_init ns u (Some n)) = n)
  ∧ (∀ self payload sent,
       encode self [payload] sent =
       if ByteSize payload >? min_bytes self
       then (r ← putLargePayload self payload; mret [r]) sent
       else (Ok [payload], sent))
  ∧ (∀ payload, bytes_len (data payload) ≤ ByteSize payload)
  ∧ bytes_len (data payload_hi_plain) ≤ min_bytes codec_ns1 < ByteSize payload_hi_plain
  ∧ (∀ d, ByteSize (mkPayload ∅ d) =
          match d with
          | [] => 0
          | _ => 1 + varint_size (bytes_len d) + bytes_len d
          end)
  ∧ (∀ m k v d,
       m !! k = None →
       let key_field := 1 + varint_size (str_len k) + str_len k in
       let value_field := 1 + varint_size (bytes_len v) + bytes_len v in
       let entry := key_field + value_field in
       ByteSize (mkPayload (<[k := v]> m) d)
       = ByteSize (mkPayload m d) + (1 + varint_size entry + entry))
  ∧ varint_size 0 = 1
  ∧ (∀ n, 0 < n → 2 ^ (7 * (varint_size n - 1)) ≤ n < 2 ^ (7 * varint_size n)).
Proof.
  split; [done|]. split; [done|]. split; [|split; [|split; [|split; [|split; [|split]]]]].
  - intros self payload sent. unfold encode. rewrite encode_loop_cons.
    unfold mbind, IO_bind.
    destruct (ByteSize payload >? min_bytes self); [|reflexivity].
    destruct (putLargePayload self payload sent) as [[r|e] sent']; reflexivity.
  - apply data_len_le_ByteSize.
  - by vm_compute.
  - intros d. unfold ByteSize, metadata_size. cbn [metadata data].
    rewrite map_fold_empty. by destruct d.
  - intros m k v d Hfresh. cbv zeta. unfold ByteSize. cbn [metadata data].
    rewrite metadata_size_insert by done. unfold entry_size. unfold delimited_size. lia.
  - reflexivity.
  - apply varint_size_bounds.
Qed.

(** The entry [encoding] on a payload of two data bytes: four bytes on the
    wire without it, thirty with it, of which the entry is twenty-four and its
    field twenty-six. *)
Lemma encode_compares_ByteSize_witness :
  metadata payload_hi !! "encoding" = None
  ∧ ByteSize (mkPayload ∅ (str_encode "hi")) = 1 + 1 + 2
  ∧ ByteSize (mkPayload (<[ "encoding" := str_encode "binary/plain" ]> ∅) (str_encode "hi"))
    = (1 + 1 + 2) + (1 + 1 + ((1 + 1 + 8) + (1 + 1 + 12))).
Proof.
  pose proof (@encode_compares_ByteSize double_runtime)
    as (_ & _ & _ & _ & _ & Hempty & Hentry & _ & _).
  split; [reflexivity|]. split; [by rewrite Hempty|].
  pose proof (Hentry ∅ "encoding" (str_encode "binary/plain") (str_encode "hi")
                (lookup_empty _)) as Hplain.
  cbv zeta in Hplain. rewrite Hplain, Hempty. by vm_compute.
Defined.

(** ** The requests *)

Lemma unpack_pair_error s e : unpack_pair s = Raise e → e = ValueError.
Proof.
  unfold unpack_pair. destruct (characters s) as [|a [|b [|c l]]]; congruence.
Qed.

Example unpack_pair_examples :
  unpack_pair "ab" = Ok ("a", "b")
  ∧ unpack_pair "key" = Raise ValueError
  ∧ unpack_pair "k" = Raise ValueError
  ∧ unpack_pair (string_of_list_byte [xc3; xa9]) = Raise ValueError
  ∧ unpack_pair (string_of_list_byte [xc3; xa9; x61])
    = Ok (string_of_list_byte [xc3; xa9], "a")
  ∧ unpack_pair (string_of_list_byte [x61; xe2; x82; xac])
    = Ok ("a", string_of_list_byte [xe2; x82; xac]).
Proof. repeat split. Qed.

Lemma unpack_pairs_raises (l : list string) s :
  s ∈ l → unpack_pair s = Raise ValueError → unpack_pairs l = Raise ValueError.
Proof.
  intros Hin Hbad. induction l as [|x l IH]; [by apply not_elem_of_nil in Hin|].
  cbn [unpack_pairs]. unfold mbind, result_bind.
  destruct (unpack_pair x) as [kv|e] eqn:Hx.
  - apply elem_of_cons in Hin as [->|Hin]; [congruence|].
    by rewrite IH.
  - by rewrite (unpack_pair_error x e Hx).
Qed.

(** A [params] that is the set literal of line 83 is refused before the
    request leaves: the element [key] has three characters. *)
Lemma requests_get_set_raises `{Runtime} u k headers sent :
  requests_get u (ParamsSet {[ "key"; k ]}) headers sent = (Raise ValueError, sent).
Proof.
  unfold requests_get, request, mbind, IO_bind, lift. cbn [req_params encode_params].
  rewrite (unpack_pairs_raises _ "key"); [done | | done].
  apply elem_of_elements. set_solver.
Qed.

(** C7.  [getLargePayload] sends no request at all: the value of the
    [X-Payload-Expected-Content-Length] header is computed with
    [base64.b64decode] on the record's integer size, which raises before
    [requests.get] is reached.  The call itself is written with an address
    that ends in [v2/blobs/put], not in [v2/blobs/get], and with the set
    [{"key", k}] where a mapping from [key] to [k] is meant, which [requests]
    refuses. *)
Theorem rehydration_sends_no_fetch `{Runtime} self payload sent :
  (getLargePayload self payload sent).2 = sent
  ∧ fetch_url self = url self +:+ "v2/blobs/put"
  ∧ fetch_url self ≠ url self +:+ "v2/blobs/get"
  ∧ fetch_url self ≠ url self +:+ "/v2/blobs/get"
  ∧ ∀ k headers,
      requests_get (fetch_url self) (ParamsSet {[ "key"; k ]}) headers sent
      = (Raise ValueError, sent).
Proof.
  split; [by rewrite getLargePayload_raises|]. split; [reflexivity|].
  split; [|split].
  - intros Heq; apply append_inj_r in Heq; discriminate.
  - intros Heq; apply append_inj_r in Heq; discriminate.
  - intros k headers. apply requests_get_set_raises.
Qed.

(** C8.  The header encoding of lines 55 to 57 succeeds for no metadata map:
    [json.dumps] raises [TypeError] on the map container and on the [bytes]
    it holds, for the empty map and for a map with a value that is not
    valid UTF-8, so there is no string to decode back. *)
Theorem metadata_header_raises (m : gmap string bytes) :
  metadata_header m = Raise not_serializable
  ∧ metadata_header ∅ = Raise not_serializable
  ∧ metadata_header metadata_binary = Raise not_serializable.
Proof. repeat split. Qed.

(** ** Routing *)

(** C9.  [decode] chooses its branch by the presence of the marker key
    alone.  Under any value of the key, the empty one included, the payload
    goes to [getLargePayload]; without the key the payload is returned as it
    is and nothing is sent, whatever its content. *)
Theorem decode_routes_on_marker_key `{Runtime} self :
  (∀ payload v sent,
     metadata payload !! REMOTE_CODEC_NAME = Some v →
     decode self [payload] sent = (r ← getLargePayload self payload; mret [r]) sent)
  ∧ (∀ payload sent,
       metadata payload !! REMOTE_CODEC_NAME = None →
       decode self [payload] sent = (Ok [payload], sent)).
Proof.
  split.
  - intros payload v sent Hmark. unfold decode. rewrite decode_loop_cons, Hmark.
    unfold mbind, IO_bind.
    destruct (getLargePayload self payload sent) as [[r|e] sent']; reflexivity.
  - intros payload sent Hplain.
    apply (decode_loop_unmarked self [payload] [] sent). by repeat constructor.
Qed.

(** The marker with the empty value is routed to [getLargePayload]; a payload
    without the marker is passed through although the converter of the closed
    examples reads its content as a reference record. *)
Lemma decode_routes_on_marker_key_witness :
  (metadata payload_marked !! REMOTE_CODEC_NAME = Some []
   ∧ ∀ (R : Runtime) sent,
       decode codec_default [payload_marked] sent
       = (r ← getLargePayload codec_default payload_marked; mret [r]) sent)
  ∧ (metadata payload_reference_unmarked !! REMOTE_CODEC_NAME = None
     ∧ @from_payloads double_runtime payload_reference_unmarked
       = Ok (AsRemotePayload record_A20)
     ∧ @decode double_runtime codec_default [payload_reference_unmarked] []
       = (Ok [payload_reference_unmarked], [])).
Proof.
  split.
  - split; [reflexivity|]. intros R sent.
    apply (proj1 (decode_routes_on_marker_key codec_default) payload_marked []).
    reflexivity.
  - split; [reflexivity|]. split; [reflexivity|].
    apply (proj2 (@decode_routes_on_marker_key double_runtime codec_default)).
    reflexivity.
Defined.

(** ** Frame *)

(** C10.  A run of [encode] or [decode] over payload objects that exist
    leaves the attributes of [self] and every existing object as they were.
    Each returned reference is the input reference itself where the payload
    took the pass-through branch, and an object constructed during the run
    where it took the remote branch. *)
Theorem codec_and_inputs_unchanged `{Runtime} payloads s :
  Forall (fun l => (l < next_ref s)%nat) payloads →
  (preserved s (encode_refs payloads s).2
   ∧ match (encode_refs payloads s).1 with
     | Ok out =>
         Forall2 (same_or_new (takes_upload (self_obj s)) s (encode_refs payloads s).2)
                 payloads out
     | Raise _ => True
     end)
  ∧ (preserved s (decode_refs payloads s).2
     ∧ match (decode_refs payloads s).1 with
       | Ok out =>
           Forall2 (same_or_new takes_download s (decode_refs payloads s).2) payloads out
       | Raise _ => True
       end).
Proof.
  intros Hlive. split.
  - by apply encode_refs_preserves.
  - by apply decode_refs_preserves.
Qed.

Lemma codec_and_inputs_unchanged_witness :
  Forall (fun l => (l < next_ref objects_two)%nat) [0%nat; 1%nat]
  ∧ ∀ (R : Runtime),
      preserved objects_two (encode_refs [0%nat; 1%nat] objects_two).2
      ∧ (encode_refs [0%nat; 1%nat] objects_two).1 = Ok [0%nat; 1%nat]
      ∧ preserved objects_two (decode_refs [0%nat; 1%nat] objects_two).2
      ∧ (decode_refs [0%nat; 1%nat] objects_two).1 = Ok [0%nat; 1%nat].
Proof.
  assert (Forall (fun l => (l < next_ref objects_two)%nat) [0%nat; 1%nat]) as Hlive
    by (repeat constructor).
  split; [exact Hlive|]. intros R.
  destruct (codec_and_inputs_unchanged [0%nat; 1%nat] objects_two Hlive)
    as [[Henc _] [Hdec _]].
  repeat split; first [apply Henc | apply Hdec | reflexivity].
Defined.

(** * Further properties of the loops and of the upload *)

(** ** Batches compose *)

(** The shape the two loops over values share. *)
Section ValueLoopShape.
Variable remote : LargePayloadCodec → Payload → bool.
Variable call : LargePayloadCodec → Payload → IO Payload.
Variable vloop : LargePayloadCodec → list Payload → list Payload → IO (list Payload).
Hypothesis vloop_nil : ∀ self out sent, vloop self [] out sent = (Ok out, sent).
Hypothesis vloop_cons : ∀ self p rest out sent,
  vloop self (p :: rest) out sent =
  if remote self p then
    match call self p sent with
    | (Ok r, sent') => vloop self rest (out ++ [r]) sent'
    | (Raise e, sent') => (Raise e, sent')
    end
  else vloop self rest (out ++ [p]) sent.

(** The accumulator is a prefix of the result and does not influence the
    rest of the run. *)
Lemma vloop_acc self ps : ∀ out sent,
  vloop self ps out sent =
  match vloop self ps [] sent with
  | (Ok tail, sent') => (Ok (out ++ tail), sent')
  | (Raise e, sent') => (Raise e, sent')
  end.
Proof.
  induction ps as [|p rest IH]; intros out sent.
  - rewrite !vloop_nil. by rewrite app_nil_r.
  - rewrite !vloop_cons. destruct (remote self p).
    + destruct (call self p sent) as [[r|e] s1]; [|done].
      rewrite (IH (out ++ [r])), (IH ([] ++ [r])).
      destruct (vloop self rest [] s1) as [[tail|e] s2]; [|done].
      by rewrite <- !app_assoc.
    + rewrite (IH (out ++ [p])), (IH ([] ++ [p])).
      destruct (vloop self rest [] sent) as [[tail|e] s2]; [|done].
      by rewrite <- !app_assoc.
Qed.

Lemma vloop_app self xs ys : ∀ out sent,
  vloop self (xs ++ ys) out sent =
  match vloop self xs out sent with
  | (Ok a, sent') => vloop self ys a sent'
  | (Raise e, sent') => (Raise e, sent')
  end.
Proof.
  induction xs as [|p rest IH]; intros out sent.
  - by rewrite vloop_nil.
  - cbn [app]. rewrite !vloop_cons. destruct (remote self p).
    + destruct (call self p sent) as [[r|e] s1]; [|done]. apply IH.
    + apply IH.
Qed.

Lemma vloop_concat self xs ys sent :
  vloop self (xs ++ ys) [] sent =
  match vloop self xs [] sent with
  | (Ok a, sent') =>
      match vloop self ys [] sent' with
      | (Ok b, sent'') => (Ok (a ++ b), sent'')
      | (Raise e, sent'') => (Raise e, sent'')
      end
  | (Raise e, sent') => (Raise e, sent')
  end.
Proof.
  rewrite vloop_app. destruct (vloop self xs [] sent) as [[a|e] s1]; [|done].
  apply vloop_acc.
Qed.

(** When every remote call raises and sends nothing, the loop raises the
    exception of the first payload that takes the remote branch, and returns
    its input when there is none. *)
Variable err : Payload → exn.
Hypothesis call_raises : ∀ self p sent, call self p sent = (Raise (err p), sent).

Lemma vloop_first_remote self ps : ∀ out sent,
  vloop self ps out sent =
  match List.find (remote self) ps with
  | Some p => (Raise (err p), sent)
  | None => (Ok (out ++ ps), sent)
  end.
Proof.
  induction ps as [|p rest IH]; intros out sent.
  - rewrite vloop_nil. by rewrite app_nil_r.
  - rewrite vloop_cons. cbn [List.find]. destruct (remote self p).
    + by rewrite call_raises.
    + rewrite IH. destruct (List.find (remote self) rest); [done|].
      by rewrite <- app_assoc.
Qed.

End ValueLoopShape.

Lemma find_none_Forall {A} (f : A → bool) (l : list A) :
  List.find f l = None ↔ Forall (fun x => f x = false) l.
Proof.
  induction l as [|x l IH]; cbn [List.find]; [by split; [constructor|]|].
  destruct (f x) eqn:Hx.
  - split; [done|]. inversion 1; congruence.
  - rewrite IH. split; [by constructor | by inversion 1].
Qed.

Lemma takes_upload_false self p : takes_upload self p = false ↔ ByteSize p ≤ min_bytes self.
Proof. unfold takes_upload. lia. Qed.

Lemma takes_download_false p :
  takes_download p = false ↔ metadata p !! REMOTE_CODEC_NAME = None.
Proof.
  unfold takes_download. rewrite bool_decide_eq_false, <- eq_None_not_Some. done.
Qed.

Lemma find_upload_none self (ps : list Payload) :
  List.find (takes_upload self) ps = None
  ↔ Forall (fun p => ByteSize p ≤ min_bytes self) ps.
Proof.
  rewrite find_none_Forall.
  split; intros Hall; (eapply Forall_impl; [exact Hall|]);
    intros p; apply takes_upload_false.
Qed.

Lemma find_download_none (ps : list Payload) :
  List.find takes_download ps = None
  ↔ Forall (fun p => metadata p !! REMOTE_CODEC_NAME = None) ps.
Proof.
  rewrite find_none_Forall.
  split; intros Hall; (eapply Forall_impl; [exact Hall|]);
    intros p; apply takes_download_false.
Qed.

Section Batches.
Context `{Runtime}.

Lemma encode_by_find self payloads sent :
  encode self payloads sent =
  match List.find (takes_upload self) payloads with
  | Some _ => (Raise not_serializable, sent)
  | None => (Ok payloads, sent)
  end.
Proof.
  exact (vloop_first_remote takes_upload putLargePayload encode_loop
           (fun _ _ _ => eq_refl) encode_loop_cons (fun _ => not_serializable)
           putLargePayload_raises self payloads [] sent).
Qed.

Lemma decode_by_find self payloads sent :
  decode self payloads sent =
  match List.find takes_download payloads with
  | Some p => (Raise (rehydrate_error p), sent)
  | None => (Ok payloads, sent)
  end.
Proof.
  exact (vloop_first_remote (fun _ => takes_download) getLargePayload decode_loop
           (fun _ _ _ => eq_refl) decode_loop_cons_if rehydrate_error
           getLargePayload_raises self payloads [] sent).
Qed.

(** X1.  Encoding a batch made of two batches is encoding the first, then the
    second with the requests the first has left, and joining the outputs; an
    exception in the first leaves the second untouched. *)
Theorem encode_concat self xs ys sent :
  encode self (xs ++ ys) sent =
  match encode self xs sent with
  | (Ok a, sent') =>
      match encode self ys sent' with
      | (Ok b, sent'') => (Ok (a ++ b), sent'')
      | (Raise e, sent'') => (Raise e, sent'')
      end
  | (Raise e, sent') => (Raise e, sent')
  end.
Proof.
  exact (vloop_concat takes_upload putLargePayload encode_loop
           (fun _ _ _ => eq_refl) encode_loop_cons self xs ys sent).
Qed.

(** X2.  The same for [decode]: the outputs of two batches joined, the
    second run after the first, and not at all when the first raises. *)
Theorem decode_concat self xs ys sent :
  decode self (xs ++ ys) sent =
  match decode self xs sent with
  | (Ok a, sent') =>
      match decode self ys sent' with
      | (Ok b, sent'') => (Ok (a ++ b), sent'')
      | (Raise e, sent'') => (Raise e, sent'')
      end
  | (Raise e, sent') => (Raise e, sent')
  end.
Proof.
  exact (vloop_concat (fun _ => takes_download) getLargePayload decode_loop
           (fun _ _ _ => eq_refl) decode_loop_cons_if self xs ys sent).
Qed.

(** X3.  [encode] on any batch: the batch itself when no payload is over the
    threshold, the [TypeError] of line 55 as soon as one is; in both cases
    nothing is sent to the store. *)
Theorem encode_first_over_threshold self payloads sent :
  encode self payloads sent =
  match List.find (takes_upload self) payloads with
  | Some _ => (Raise not_serializable, sent)
  | None => (Ok payloads, sent)
  end.
Proof. apply encode_by_find. Qed.

(** X4.  [decode] on any batch: the batch itself when no payload carries the
    marker key; otherwise the exception that [getLargePayload] raises for the
    first payload that carries it, with none of the earlier payloads
    returned; in both cases nothing is sent. *)
Theorem decode_stops_at_first_marked self payloads sent :
  match List.find takes_download payloads with
  | None => decode self payloads sent = (Ok payloads, sent)
  | Some p =>
      ∃ e, getLargePayload self p sent = (Raise e, sent)
           ∧ decode self payloads sent = (Raise e, sent)
  end.
Proof.
  rewrite decode_by_find.
  destruct (List.find takes_download payloads) as [p|]; [|done].
  exists (rehydrate_error p). split; [apply getLargePayload_raises | done].
Qed.

(** X5.  [decode(encode(batch))] returns exactly for the batches in which every
    payload is at most the threshold on the wire and carries no marker key,
    and then it returns the batch itself and has sent nothing. *)
Theorem roundtrip_returns_iff self payloads sent out sent' :
  roundtrip self payloads sent = (Ok out, sent')
  ↔ Forall (fun p => ByteSize p ≤ min_bytes self
                     ∧ metadata p !! REMOTE_CODEC_NAME = None) payloads
    ∧ out = payloads ∧ sent' = sent.
Proof.
  unfold roundtrip, mbind, IO_bind. rewrite encode_by_find.
  rewrite Forall_and, <- find_upload_none, <- find_download_none.
  destruct (List.find (takes_upload self) payloads) as [p|].
  { split; [done|]. intros ((Hup & _) & _). discriminate. }
  rewrite decode_by_find.
  destruct (List.find takes_download payloads) as [p|].
  - split; [done|]. intros ((_ & Hdown) & _). discriminate.
  - split; [intros [= <- <-]; done | intros (_ & -> & ->); done].
Qed.

(** X6.  A batch that [encode] returns under one threshold is returned, with the
    same output and the same requests, by every codec whose threshold is at
    least as large, whatever its namespace and address. *)
Theorem encode_threshold_monotone self self' payloads sent out sent' :
  encode self payloads sent = (Ok out, sent') →
  min_bytes self ≤ min_bytes self' →
  encode self' payloads sent = (Ok out, sent').
Proof.
  rewrite !encode_by_find. intros Hret Hle.
  destruct (List.find (takes_upload self) payloads) eqn:Hup; [done|].
  injection Hret as <- <-.
  apply find_upload_none in Hup.
  assert (List.find (takes_upload self') payloads = None) as ->; [|done].
  apply find_upload_none. eapply Forall_impl; [exact Hup|].
  intros p Hp. simpl in Hp. lia.
Qed.

End Batches.

Lemma encode_threshold_monotone_witness :
  min_bytes codec_ns1 ≤ min_bytes codec_default
  ∧ ∀ (R : Runtime) sent,
      encode codec_ns1 [payload_hi] sent = (Ok [payload_hi], sent)
      ∧ encode codec_default [payload_hi] sent = (Ok [payload_hi], sent).
Proof.
  split; [by vm_compute|]. intros R sent.
  assert (encode codec_ns1 [payload_hi] sent = (Ok [payload_hi], sent)) as Henc
    by (rewrite encode_by_find; reflexivity).
  split; [exact Henc|].
  apply (encode_threshold_monotone codec_ns1 codec_default _ _ _ _ Henc).
  by vm_compute.
Defined.

(** ** Batches with a payload that takes a remote branch *)

(** C6.  A batch of N payloads does not come back as N payloads as soon as
    one of them is over the threshold: [encode] raises the [TypeError] of
    line 55 and returns no payload at all, whatever the other payloads are and
    wherever the large one stands; nothing is sent.  Likewise [decode] raises
    and returns nothing for every batch with a marked payload. *)
Theorem mixed_batch_returns_nothing `{Runtime} self payloads sent :
  (∀ p, p ∈ payloads → ByteSize p > min_bytes self →
        encode self payloads sent = (Raise not_serializable, sent))
  ∧ (∀ p, p ∈ payloads → is_Some (metadata p !! REMOTE_CODEC_NAME) →
          ∃ e, decode self payloads sent = (Raise e, sent)).
Proof.
  split.
  - intros p Hin Hbig. rewrite encode_by_find.
    destruct (List.find (takes_upload self) payloads) eqn:Hfind; [done|].
    apply find_upload_none in Hfind. rewrite Forall_forall in Hfind.
    specialize (Hfind p Hin). simpl in Hfind. lia.
  - intros p Hin [v Hmark]. rewrite decode_by_find.
    destruct (List.find takes_download payloads) as [q|] eqn:Hfind; [by eexists|].
    apply find_download_none in Hfind. rewrite Forall_forall in Hfind.
    specialize (Hfind p Hin). simpl in Hfind. congruence.
Qed.

(** Three payloads of 4, 48 and 12 bytes against a threshold of ten, and a
    marked payload after an unmarked one. *)
Lemma mixed_batch_returns_nothing_witness :
  (payload_A20 ∈ [payload_hi; payload_A20; payload_ten]
   ∧ ByteSize payload_hi ≤ min_bytes codec_ns1
   ∧ ByteSize payload_A20 > min_bytes codec_ns1
   ∧ ∀ (R : Runtime) sent,
       encode codec_ns1 [payload_hi; payload_A20; payload_ten] sent
       = (Raise not_serializable, sent))
  ∧ (payload_marked ∈ [payload_hi; payload_marked]
     ∧ is_Some (metadata payload_marked !! REMOTE_CODEC_NAME)
     ∧ ∀ (R : Runtime) sent,
         ∃ e, decode codec_default [payload_hi; payload_marked] sent = (Raise e, sent)).
Proof.
  assert (payload_A20 ∈ [payload_hi; payload_A20; payload_ten]) as Hin
    by (right; left).
  assert (ByteSize payload_A20 > min_bytes codec_ns1) as Hbig by (by vm_compute).
  assert (payload_marked ∈ [payload_hi; payload_marked]) as Hin' by (right; left).
  assert (is_Some (metadata payload_marked !! REMOTE_CODEC_NAME)) as Hmark
    by (exists []; reflexivity).
  split.
  - split; [exact Hin|]. split; [by vm_compute|]. split; [exact Hbig|].
    intros R sent.
    exact (proj1 (mixed_batch_returns_nothing codec_ns1 _ sent) _ Hin Hbig).
  - split; [exact Hin'|]. split; [exact Hmark|].
    intros R sent.
    exact (proj2 (mixed_batch_returns_nothing codec_default _ sent) _ Hin' Hmark).
Defined.

(** ** The upload (lines 60 to 76) *)

Section Upload.
Context `{Runtime}.

Lemma put_blob_outcome self payload digest params headers sent :
  put_blob self payload digest params headers sent =
  (resp ← respond sent (upload_request self payload params headers);
   _ ← raise_for_status resp;
   item ← json_item resp "key";
   key ← string_field item;
   to_payloads (reference_record payload digest key),
   sent ++ [upload_request self payload params headers]).
Proof.
  unfold put_blob, requests_put, request, send, mbind, IO_bind, result_bind, lift.
  cbn [req_params encode_params]. fold (upload_request self payload params headers).
  destruct (respond sent _) as [resp|e]; [|done].
  destruct (raise_for_status resp); [|done].
  destruct (json_item resp "key") as [item|e]; [|done].
  destruct (string_field item) as [key|e]; done.
Qed.

(** X7.  A status from 400 to 599 makes the upload raise [HTTPError] with that
    status, whatever the body of the answer holds: the body is not read and
    the converter is not called.  The one request has been sent. *)
Theorem put_blob_http_error self payload digest params headers sent resp :
  respond sent (upload_request self payload params headers) = Ok resp →
  400 ≤ status_code resp < 600 →
  put_blob self payload digest params headers sent
  = (Raise (HTTPError (status_code resp)),
     sent ++ [upload_request self payload params headers]).
Proof.
  intros Hresp Hstatus. rewrite put_blob_outcome, Hresp.
  unfold mbind, result_bind, raise_for_status.
  replace ((400 <=? status_code resp) && (status_code resp <? 600)) with true; [done|].
  symmetry. apply andb_true_iff. lia.
Qed.

(** X8.  An answer with a status outside 400 to 599 whose body is not JSON, or is
    a JSON object without [key], makes the upload raise [JSONDecodeError],
    respectively [KeyError]; a body that is JSON but not an object makes it
    raise [TypeError]; no reference payload is built. *)
Theorem put_blob_missing_key self payload digest params headers sent resp :
  respond sent (upload_request self payload params headers) = Ok resp →
  status_code resp < 400 ∨ 600 ≤ status_code resp →
  match json resp with Some (JObject obj) => obj !! "key" = None | _ => True end →
  put_blob self payload digest params headers sent
  = (Raise (match json resp with
            | Some (JObject _) => KeyError "key"
            | Some JNotObject => not_subscriptable
            | None => JSONDecodeError
            end),
     sent ++ [upload_request self payload params headers]).
Proof.
  intros Hresp Hstatus Hkey. rewrite put_blob_outcome, Hresp.
  unfold mbind, result_bind, raise_for_status, json_item.
  replace ((400 <=? status_code resp) && (status_code resp <? 600)) with false
    by (symmetry; apply andb_false_iff; lia).
  destruct (json resp) as [[obj|]|]; [|done|done]. by rewrite Hkey.
Qed.

End Upload.

Lemma put_blob_http_error_witness :
  ∃ resp,
    @respond unavailable_runtime [] (upload_request codec_ns1 payload_A20 ∅ ∅) = Ok resp
    ∧ 400 ≤ status_code resp < 600
    ∧ json_item resp "key" = Ok (JString "blob-1")
    ∧ @put_blob unavailable_runtime codec_ns1 payload_A20 digest_A20 ∅ ∅ []
      = (Raise (HTTPError 503), [upload_request codec_ns1 payload_A20 ∅ ∅]).
Proof.
  eexists. split; [reflexivity|]. split; [by vm_compute|]. split; [reflexivity|].
  apply (@put_blob_http_error unavailable_runtime codec_ns1 payload_A20 digest_A20
           ∅ ∅ [] _ eq_refl).
  by vm_compute.
Defined.

Lemma put_blob_missing_key_witness :
  ∃ resp,
    @respond keyless_runtime [] (upload_request codec_ns1 payload_A20 ∅ ∅) = Ok resp
    ∧ (status_code resp < 400 ∨ 600 ≤ status_code resp)
    ∧ @put_blob keyless_runtime codec_ns1 payload_A20 digest_A20 ∅ ∅ []
      = (Raise (KeyError "key"), [upload_request codec_ns1 payload_A20 ∅ ∅]).
Proof.
  eexists. split; [reflexivity|]. split; [left; by vm_compute|].
  apply (@put_blob_missing_key keyless_runtime codec_ns1 payload_A20 digest_A20
           ∅ ∅ [] _ eq_refl); [left; by vm_compute | reflexivity].
Defined.

(** ** The size the threshold is compared with *)

Lemma ByteSize_data_overhead p : data p ≠ [] → bytes_len (data p) + 2 ≤ ByteSize p.
Proof.
  intros Hdata. unfold ByteSize. pose proof (metadata_size_nonneg (metadata p)).
  destruct (data p) as [|b rest]; [done|].
  pose proof (delimited_size_lower (bytes_len (b :: rest))). lia.
Qed.

(** X10.  A payload with data takes the offload branch as soon as its data is one
    byte short of the threshold: the field costs at least two bytes more than
    its content.  With [putLargePayload] as it is, [encode] then raises. *)
Theorem encode_offloads_data_near_threshold `{Runtime} self p sent :
  data p ≠ [] →
  min_bytes self - 1 ≤ bytes_len (data p) →
  takes_upload self p = true
  ∧ encode self [p] sent = (r ← putLargePayload self p; mret [r]) sent
  ∧ encode self [p] sent = (Raise not_serializable, sent).
Proof.
  intros Hdata Hlen. pose proof (ByteSize_data_overhead p Hdata) as Hsize.
  assert (takes_upload self p = true) as Hup by (unfold takes_upload; lia).
  split; [done|]. unfold encode. rewrite encode_loop_cons.
  fold (takes_upload self p). rewrite Hup. unfold mbind, IO_bind.
  by rewrite putLargePayload_raises.
Qed.

Lemma encode_offloads_data_near_threshold_witness :
  data payload_ten ≠ []
  ∧ min_bytes codec_ns1 - 1 ≤ bytes_len (data payload_ten)
  ∧ bytes_len (data payload_ten) ≤ min_bytes codec_ns1
  ∧ ∀ (R : Runtime) sent,
      encode codec_ns1 [payload_ten] sent = (Raise not_serializable, sent).
Proof.
  assert (data payload_ten ≠ []) as Hdata by discriminate.
  assert (min_bytes codec_ns1 - 1 ≤ bytes_len (data payload_ten)) as Hlen
    by (by vm_compute).
  split; [exact Hdata|]. split; [exact Hlen|]. split; [by vm_compute|].
  intros R sent.
  apply (encode_offloads_data_near_threshold codec_ns1 payload_ten sent Hdata Hlen).
Defined.

(** X11.  A metadata entry under a key the payload does not have yet adds the wire
    size of the entry, so it can move a payload from the pass-through branch
    to the offload branch and never the other way. *)
Theorem ByteSize_fresh_entry p k v :
  metadata p !! k = None →
  ByteSize (mkPayload (<[k := v]> (metadata p)) (data p))
  = ByteSize p + delimited_size (entry_size k v)
  ∧ ∀ self, takes_upload self p = true →
            takes_upload self (mkPayload (<[k := v]> (metadata p)) (data p)) = true.
Proof.
  intros Hfresh.
  assert (ByteSize (mkPayload (<[k := v]> (metadata p)) (data p))
          = ByteSize p + delimited_size (entry_size k v)) as Hsize.
  { unfold ByteSize, metadata_size. cbn [metadata data].
    rewrite map_fold_insert_L; [lia | | done].
    intros j1 j2 z1 z2 y _ _ _. lia. }
  split; [done|]. intros self. unfold takes_upload. rewrite Hsize.
  pose proof (delimited_size_lower (entry_size k v)).
  pose proof (entry_size_nonneg k v). lia.
Qed.

Lemma ByteSize_fresh_entry_witness :
  metadata payload_hi !! "encoding" = None
  ∧ ByteSize payload_hi = 4
  ∧ ByteSize (mkPayload (<[ "encoding" := str_encode "binary/plain" ]> (metadata payload_hi))
                        (data payload_hi)) = 4 + 26.
Proof.
  assert (metadata payload_hi !! "encoding" = None) as Hfresh by reflexivity.
  split; [exact Hfresh|]. split; [by vm_compute|].
  rewrite (proj1 (ByteSize_fresh_entry payload_hi "encoding"
                    (str_encode "binary/plain") Hfresh)).
  by vm_compute.
Defined.

(** ** A marked payload the converter refuses *)

(** X12.  When the converter raises on the content of a marked payload, [decode]
    raises that exception as it is, sends nothing and returns none of the
    payloads of the batch that came before it. *)
Theorem decode_malformed_reference `{Runtime} self before payload after e sent :
  Forall (fun p => metadata p !! REMOTE_CODEC_NAME = None) before →
  is_Some (metadata payload !! REMOTE_CODEC_NAME) →
  from_payloads payload = Raise e →
  decode self (before ++ payload :: after) sent = (Raise e, sent).
Proof.
  intros Hplain [v Hmark] Hconv.
  unfold decode. rewrite (vloop_app (fun _ => takes_download) getLargePayload decode_loop
                            (fun _ _ _ => eq_refl) decode_loop_cons_if).
  rewrite decode_loop_unmarked by done.
  rewrite decode_loop_cons, Hmark, getLargePayload_raises.
  unfold rehydrate_error. by rewrite Hconv.
Qed.

Lemma decode_malformed_reference_witness :
  Forall (fun p => metadata p !! REMOTE_CODEC_NAME = None) [payload_hi]
  ∧ is_Some (metadata payload_marked !! REMOTE_CODEC_NAME)
  ∧ @from_payloads double_runtime payload_marked
    = Raise (ConverterError "Unknown payload encoding")
  ∧ @decode double_runtime codec_default [payload_hi; payload_marked; payload_A20] []
    = (Raise (ConverterError "Unknown payload encoding"), []).
Proof.
  assert (Forall (fun p => metadata p !! REMOTE_CODEC_NAME = None) [payload_hi]) as Hplain
    by (repeat constructor).
  assert (is_Some (metadata payload_marked !! REMOTE_CODEC_NAME)) as Hmark
    by (exists []; reflexivity).
  split; [exact Hplain|]. split; [exact Hmark|]. split; [reflexivity|].
  apply (@decode_malformed_reference double_runtime codec_default [payload_hi]
           payload_marked [payload_A20] _ [] Hplain Hmark eq_refl).
Defined.

(** ** A marked payload the converter does not read as a record *)

(** X13.  When the converter gives back [bytes] or [None] for a marked
    payload (the encodings [binary/plain] and [binary/null]), [decode] raises
    the [AttributeError] of line 83, sends nothing and returns none of the
    payloads of the batch that came before it. *)
Theorem decode_unhinted_value `{Runtime} self before payload after sent :
  Forall (fun p => metadata p !! REMOTE_CODEC_NAME = None) before →
  is_Some (metadata payload !! REMOTE_CODEC_NAME) →
  (∀ b, from_payloads payload = Ok (AsBytes b) →
        decode self (before ++ payload :: after) sent
        = (Raise (AttributeError "'bytes' object has no attribute 'key'"), sent))
  ∧ (from_payloads payload = Ok AsNone →
     decode self (before ++ payload :: after) sent
     = (Raise (AttributeError "'NoneType' object has no attribute 'key'"), sent)).
Proof.
  intros Hplain [v Hmark].
  assert (decode self (before ++ payload :: after) sent
          = (Raise (rehydrate_error payload), sent)) as Hdec.
  { unfold decode.
    rewrite (vloop_app (fun _ => takes_download) getLargePayload decode_loop
               (fun _ _ _ => eq_refl) decode_loop_cons_if).
    rewrite decode_loop_unmarked by done.
    by rewrite decode_loop_cons, Hmark, getLargePayload_raises. }
  unfold rehydrate_error in Hdec.
  split; [intros b Hconv | intros Hconv]; by rewrite Hconv in Hdec.
Qed.

Lemma decode_unhinted_value_witness :
  Forall (fun p => metadata p !! REMOTE_CODEC_NAME = None) [payload_hi]
  ∧ is_Some (metadata payload_plain_marked !! REMOTE_CODEC_NAME)
  ∧ @from_payloads plain_runtime payload_plain_marked = Ok (AsBytes (str_encode "hi"))
  ∧ @decode plain_runtime codec_default [payload_hi; payload_plain_marked; payload_A20] []
    = (Raise (AttributeError "'bytes' object has no attribute 'key'"), []).
Proof.
  assert (Forall (fun p => metadata p !! REMOTE_CODEC_NAME = None) [payload_hi]) as Hplain
    by (repeat constructor).
  assert (is_Some (metadata payload_plain_marked !! REMOTE_CODEC_NAME)) as Hmark
    by (exists (str_encode "v2"); reflexivity).
  split; [exact Hplain|]. split; [exact Hmark|]. split; [reflexivity|].
  exact (proj1 (@decode_unhinted_value plain_runtime codec_default [payload_hi]
                  payload_plain_marked [payload_A20] [] Hplain Hmark) _ eq_refl).
Defined.
